(** * Connection establishment of the Databricks SQL driver (connector.go)

    A shallow embedding of [connector.Connect] and [NewConnector] and of the
    collaborators they call, followed by the properties of the
    specification that concern them.

    Go values are modelled as follows.
    - a pointer [*T] is an [option T]; dereferencing [None] is a run-time
      panic, which is an outcome of its own ([Panicked]);
    - [map[string]string] is a [gmap string string]; the order in which a
      [range] loop visits it is chosen by the run-time at every loop;
    - [int], [time.Duration] and the protocol version are [Z]: the code
      stores and passes them on and computes nothing with them;
    - [[]byte] is a [list Byte.byte];
    - an [error] is a tree of messages ([errors.New], [errors.Wrap]);
    - calls to collaborators outside connector.go are recorded in a trace,
      threaded through a small state monad. *)

From Stdlib Require Import ZArith String Ascii.
From stdpp Require Import base option list gmap strings pretty.

Local Open Scope string_scope.
Local Open Scope list_scope.

(** ** Go data *)

(** An [error] value.  [ErrNew] is [errors.New(msg)]; [ErrWrap] is
    [errors.Wrap(cause, msg)], which keeps the cause. *)
Inductive error : Type :=
| ErrNew (msg : string)
| ErrWrap (cause : error) (msg : string).

#[global] Instance error_eq_dec : EqDecision error.
Proof. solve_decision. Defined.



(** cli_service: the parts of the generated protocol types that
    connector.go reads or writes. *)
Definition TIdentifier : Type := string.

Definition TIdentifierPtr (v : TIdentifier) : option TIdentifier := Some v.

Record TNamespace : Type := mkTNamespace {
  CatalogName : option TIdentifier;
  SchemaName : option TIdentifier
}.

Record TOpenSessionReq : Type := mkTOpenSessionReq {
  ClientProtocol : Z;
  Configuration : gmap string string;
  InitialNamespace : option TNamespace;
  ReqCanUseMultipleCatalogs : option bool
}.

Record THandleIdentifier : Type := mkTHandleIdentifier {
  GUID : list Byte.byte;
  Secret : list Byte.byte
}.

Record TSessionHandle : Type := mkTSessionHandle {
  SessionId : option THandleIdentifier
}.

Record TOpenSessionResp : Type := mkTOpenSessionResp {
  ServerProtocolVersion : Z;
  SessionHandle : option TSessionHandle
}.

(** A value of interface type [any]: the nil interface, a pointer of
    dynamic type [*TOpenSessionResp] (which may itself be nil), or a value
    of some other dynamic type. *)
Inductive any : Type :=
| AnyNil
| AnyOpenSessionResp (p : option TOpenSessionResp)
| AnyOther (descr : string).

(** config.Config: the fields connector.go touches. *)
Record Config : Type := mkConfig {
  Host : string;
  Port : Z;
  AccessToken : string;
  HTTPPath : string;
  MaxRows : Z;
  QueryTimeoutSeconds : Z;
  Catalog : string;
  Schema : string;
  UserAgentEntry : string;
  SessionParams : gmap string string;
  ThriftProtocolVersion : Z;
  CanUseMultipleCatalogs : bool;
  PollInterval : Z;
  DefaultTimeout : Z
}.

(** The thrift client handle returned by [client.InitThriftClient]. *)
Inductive ThriftServiceClient : Type :=
| mkClient (handle : nat).

Record connector : Type := mkConnector {
  connector_cfg : Config
}.

(** The [conn] struct built on lines 60-65; [session] is a pointer. *)
Record conn : Type := mkConn {
  id : string;
  cfg : Config;
  client : ThriftServiceClient;
  session : option TOpenSessionResp
}.

(** ** Run-time results *)

(** The result of evaluating an expression that may dereference nil. *)
Inductive GoResult (A : Type) : Type :=
| Val (a : A)
| NilDeref.
Arguments Val {A} a.
Arguments NilDeref {A}.

(** What a call of [Connect] does: it returns its two results, or it
    panics. *)
Inductive Outcome : Type :=
| Returned (c : option conn) (err : option error)
| Panicked.

(** ** Session identity rendering *)

(** One hexadecimal digit, lower case, as the verb [%x] prints it. *)
Definition hexdigit (n : N) : ascii :=
  match n with
  | 0 => "0" | 1 => "1" | 2 => "2" | 3 => "3"
  | 4 => "4" | 5 => "5" | 6 => "6" | 7 => "7"
  | 8 => "8" | 9 => "9" | 10 => "a" | 11 => "b"
  | 12 => "c" | 13 => "d" | 14 => "e" | _ => "f"
  end%N%char.

(** [%x] of a byte slice: two digits a byte, high nibble first. *)
Fixpoint hex (bs : list Byte.byte) : string :=
  match bs with
  | [] => ""
  | b :: rest =>
      String (hexdigit (Byte.to_N b / 16))
        (String (hexdigit (Byte.to_N b mod 16)) (hex rest))
  end.

(** The value of a hexadecimal digit; it reads back what [hexdigit]
    printed. *)
Definition hexvalue (ch : ascii) : N :=
  match ch with
  | "0" => 0 | "1" => 1 | "2" => 2 | "3" => 3
  | "4" => 4 | "5" => 5 | "6" => 6 | "7" => 7
  | "8" => 8 | "9" => 9 | "a" => 10 | "b" => 11
  | "c" => 12 | "d" => 13 | "e" => 14 | "f" => 15
  | _ => 0
  end%char%N.

(** The byte two hexadecimal digits stand for. *)
Definition unhex (hi lo : ascii) : option Byte.byte :=
  Byte.of_N (16 * hexvalue hi + hexvalue lo).

(** The Go slice expression [bts[lo:hi]]. *)
Definition subslice (lo hi : nat) (bts : list Byte.byte) : list Byte.byte :=
  take (hi - lo) (drop lo bts).

(** Modelled from the spec: [client.SprintGuid] is declared in
    internal/client, outside connector.go.  The spec (4.4) has it as a
    deterministic conversion from the fixed-size binary session identity
    to a canonical text form, grouped hexadecimal: the sixteen bytes are
    printed in groups of 4, 2, 2, 2 and 6 bytes separated by dashes.  A
    slice of another length is not a valid identity and is printed as
    plain hexadecimal. *)
Definition SprintGuid (bts : list Byte.byte) : string :=
  if decide (length bts = 16%nat) then
    hex (subslice 0 4 bts) +:+ "-" +:+ hex (subslice 4 6 bts) +:+ "-" +:+
    hex (subslice 6 8 bts) +:+ "-" +:+ hex (subslice 8 10 bts) +:+ "-" +:+
    hex (subslice 10 16 bts)
  else hex bts.

(** ** Collaborators and the trace of their calls *)

(** A call that leaves connector.go. *)
Inductive Event : Type :=
| EvInitThriftClient (cfg : Config)
| EvWatch (interval timeout : Z)
| EvOpenSession (req : TOpenSessionReq)
| EvExecContext (stmt : string) (res : option error).

Definition Trace : Type := list Event.

(** Which of completion, deadline and cancellation the bounded-wait
    executor sees first, with the failure it then reports. *)
Inductive WatchRace : Type :=
| OpFirst
| TimeoutFirst (e : error)
| CancelFirst (e : error).

(** The world one call of [Connect] runs in.
    - [InitThriftClient]: [client.InitThriftClient], a client or an error;
    - [OpenSession]: the answer of the remote call [tclient.OpenSession];
      the closure on line 38 returns it at type [any], and the model lets
      the call answer with every value of that type, so that the type
      assertion on line 55 can fail;
    - [watchRace]: what the bounded-wait executor observes first;
    - [rangeSeed]: the order the run-time picks for the [range] loop over
      the session parameters;
    - [ExecContext]: [conn.ExecContext], which may answer differently
      depending on the calls made before. *)
Record Env : Type := mkEnv {
  InitThriftClient : Config -> error + ThriftServiceClient;
  OpenSession : ThriftServiceClient -> TOpenSessionReq -> any * option error;
  watchRace : WatchRace;
  rangeSeed : nat;
  ExecContext : Trace -> conn -> string -> option error
}.

(** The state monad that threads the trace. *)
Definition M (A : Type) : Type := Trace -> A * Trace.

#[global] Instance M_ret : MRet M := fun A a t => (a, t).
#[global] Instance M_bind : MBind M :=
  fun A B f m t => let '(a, t') := m t in f a t'.

(** A collaborator call: ask the oracle, record the event. *)
Definition call {A : Type} (ev : A -> Event) (oracle : Trace -> A) : M A :=
  fun t => let a := oracle t in (a, t ++ [ev a]).

(** Run a computation from the empty trace. *)
Definition run {A : Type} (m : M A) : A * Trace := m [].

Definition initThriftClient (env : Env) (cfg : Config)
  : M (error + ThriftServiceClient) :=
  call (fun _ => EvInitThriftClient cfg) (fun _ => InitThriftClient env cfg).

Definition openSession (env : Env) (tclient : ThriftServiceClient)
    (req : TOpenSessionReq) : M (any * option error) :=
  call (fun _ => EvOpenSession req) (fun _ => OpenSession env tclient req).

Definition execContext (env : Env) (c : conn) (stmt : string)
  : M (option error) :=
  call (EvExecContext stmt) (fun t => ExecContext env t c stmt).

(** ** The bounded-wait executor *)

Inductive WatchStatus : Type :=
| WatchSuccess | WatchErr | WatchCanceled | WatchTimeout.

Record Sentinel : Type := mkSentinel {
  OnDoneFn : any -> M (any * option error)
}.

(** Modelled from the spec: [sentinel.Watch] is declared in
    internal/sentinel, outside connector.go.  The spec (4.1) has it invoke
    the operation exactly once and return exactly one of: the operation's
    successful result, the operation's own failure (verbatim), a timeout
    failure, a cancellation failure, whichever happens first. *)
Definition Watch (race : WatchRace) (s : Sentinel) (interval timeout : Z)
  : M (WatchStatus * any * option error) :=
  _ ← call (fun _ => EvWatch interval timeout) (fun _ => tt);
  '(res, err) ← OnDoneFn s AnyNil;
  mret match race with
       | OpFirst =>
           match err with
           | None => (WatchSuccess, res, None)
           | Some e => (WatchErr, AnyNil, Some e)
           end
       | TimeoutFirst e => (WatchTimeout, AnyNil, Some e)
       | CancelFirst e => (WatchCanceled, AnyNil, Some e)
       end.

(** ** connector.go *)

(** Modelled from the spec: [wrapErr] and [wrapErrf] are declared in
    another file of the package.  The spec (7) has them wrap the cause
    with a message, the original cause preserved; the prefix is the one
    the literal on line 57 carries. *)
Definition wrapErr (err : error) (msg : string) : error :=
  ErrWrap err ("databricks: " +:+ msg).

Definition wrapErrf (err : error) (formatted : string) : error :=
  ErrWrap err ("databricks: " +:+ formatted).

(** The generated getter [GetSessionId] of [TSessionHandle] pointers: it
    reads the field [SessionId] of its receiver, so a nil receiver panics.
    The field selection [.GUID] that follows on line 61 panics on a nil
    result all the same. *)
Definition GetSessionId (p : option TSessionHandle)
  : GoResult (option THandleIdentifier) :=
  match p with
  | None => NilDeref
  | Some h => Val (SessionId h)
  end.

(** Line 61: [session.SessionHandle.GetSessionId().GUID]. *)
Definition sessionGUID (session : option TOpenSessionResp)
  : GoResult (list Byte.byte) :=
  match session with
  | None => NilDeref
  | Some s =>
      match GetSessionId (SessionHandle s) with
      | NilDeref => NilDeref
      | Val None => NilDeref
      | Val (Some hid) => Val (GUID hid)
      end
  end.

(** The order in which [range] visits a map: one of the permutations of
    its entries, picked by the run-time. *)
Definition rangeMap (seed : nat) (m : gmap string string)
  : list (string * string) :=
  default (map_to_list m) (permutations (map_to_list m) !! seed).

(** Line 71: [fmt.Sprintf("SET `%s` = `%s`;", k, v)]. *)
Definition setStmt (kv : string * string) : string :=
  "SET `" +:+ kv.1 +:+ "` = `" +:+ kv.2 +:+ "`;".

(** Line 53: the formatted message of the session-open failure. *)
Definition connectMsg (cfg : Config) : string :=
  "error connecting: host=" +:+ Host cfg +:+ " port=" +:+ pretty (Port cfg)
    +:+ ", httpPath=" +:+ HTTPPath cfg.

(** Lines 27-34. *)
Definition resolveIdentifier (s : string) : option TIdentifier :=
  if decide (s ≠ "") then TIdentifierPtr s else None.

(** Lines 39-47: the request the closure passes to [OpenSession]. *)
Definition openSessionReq (cfg : Config) : TOpenSessionReq :=
  let catalogName := resolveIdentifier (Catalog cfg) in
  let schemaName := resolveIdentifier (Schema cfg) in
  {| ClientProtocol := ThriftProtocolVersion cfg;
     Configuration := ∅;
     InitialNamespace :=
       Some {| CatalogName := catalogName; SchemaName := schemaName |};
     ReqCanUseMultipleCatalogs := Some (CanUseMultipleCatalogs cfg) |}.

(** Lines 70-77: the loop over the session parameters, in the order the
    [range] clause yields them. *)
Fixpoint replay (env : Env) (c : conn) (kvs : list (string * string))
  : M (option error) :=
  match kvs with
  | [] => mret None
  | kv :: rest =>
      err ← execContext env c (setStmt kv);
      match err with
      | Some e => mret (Some e)
      | None => replay env c rest
      end
  end.

Definition invalidResponse : error :=
  ErrNew "databricks: invalid open session response".

(** Lines 21-79.  The logging calls on lines 66-68 and 76 do not change
    what [Connect] returns nor which statements it executes; they are left
    out. *)
Definition Connect (env : Env) (c : connector) : M Outcome :=
  let cfg := connector_cfg c in
  r ← initThriftClient env cfg;
  match r with
  | inl err =>
      mret (Returned None (Some (wrapErr err "error initializing thrift client")))
  | inr tclient =>
      let sentinel :=
        {| OnDoneFn := fun _ => openSession env tclient (openSessionReq cfg) |} in
      '(_, res, err) ← Watch (watchRace env) sentinel
                          (PollInterval cfg) (DefaultTimeout cfg);
      match err with
      | Some err => mret (Returned None (Some (wrapErrf err (connectMsg cfg))))
      | None =>
          match res with
          | AnyOpenSessionResp session =>
              match sessionGUID session with
              | NilDeref => mret Panicked
              | Val guid =>
                  let conn := {| id := SprintGuid guid; cfg := cfg;
                                 client := tclient; session := session |} in
                  err ← replay env conn
                          (rangeMap (rangeSeed env) (SessionParams cfg));
                  match err with
                  | Some err => mret (Returned None (Some err))
                  | None => mret (Returned (Some conn) None)
                  end
              end
          | _ => mret (Returned None (Some invalidResponse))
          end
      end
  end.

(** Line 87: a [connOption] is a function that updates the configuration
    it is handed; on the shared [*config.Config] this is a state
    transformer. *)
Definition connOption : Type := Config -> Config.

(** Lines 89-99.  [config.WithDefaults] is declared in internal/config; its
    result is the parameter [WithDefaults]. *)
Definition NewConnector (WithDefaults : Config) (options : list connOption)
  : option connector * option error :=
  let cfg := WithDefaults in
  let cfg := foldl (fun cfg opt => opt cfg) cfg options in
  (Some {| connector_cfg := cfg |}, None).

(** Lines 101-161: the options. *)
Definition WithServerHostname (host : string) : connOption := fun c =>
  {| Host := host; Port := Port c; AccessToken := AccessToken c;
     HTTPPath := HTTPPath c; MaxRows := MaxRows c;
     QueryTimeoutSeconds := QueryTimeoutSeconds c; Catalog := Catalog c;
     Schema := Schema c; UserAgentEntry := UserAgentEntry c;
     SessionParams := SessionParams c;
     ThriftProtocolVersion := ThriftProtocolVersion c;
     CanUseMultipleCatalogs := CanUseMultipleCatalogs c;
     PollInterval := PollInterval c; DefaultTimeout := DefaultTimeout c |}.

Definition WithPort (port : Z) : connOption := fun c =>
  {| Host := Host c; Port := port; AccessToken := AccessToken c;
     HTTPPath := HTTPPath c; MaxRows := MaxRows c;
     QueryTimeoutSeconds := QueryTimeoutSeconds c; Catalog := Catalog c;
     Schema := Schema c; UserAgentEntry := UserAgentEntry c;
     SessionParams := SessionParams c;
     ThriftProtocolVersion := ThriftProtocolVersion c;
     CanUseMultipleCatalogs := CanUseMultipleCatalogs c;
     PollInterval := PollInterval c; DefaultTimeout := DefaultTimeout c |}.

Definition WithAccessToken (token : string) : connOption := fun c =>
  {| Host := Host c; Port := Port c; AccessToken := token;
     HTTPPath := HTTPPath c; MaxRows := MaxRows c;
     QueryTimeoutSeconds := QueryTimeoutSeconds c; Catalog := Catalog c;
     Schema := Schema c; UserAgentEntry := UserAgentEntry c;
     SessionParams := SessionParams c;
     ThriftProtocolVersion := ThriftProtocolVersion c;
     CanUseMultipleCatalogs := CanUseMultipleCatalogs c;
     PollInterval := PollInterval c; DefaultTimeout := DefaultTimeout c |}.

Definition WithHTTPPath (path : string) : connOption := fun c =>
  {| Host := Host c; Port := Port c; AccessToken := AccessToken c;
     HTTPPath := path; MaxRows := MaxRows c;
     QueryTimeoutSeconds := QueryTimeoutSeconds c; Catalog := Catalog c;
     Schema := Schema c; UserAgentEntry := UserAgentEntry c;
     SessionParams := SessionParams c;
     ThriftProtocolVersion := ThriftProtocolVersion c;
     CanUseMultipleCatalogs := CanUseMultipleCatalogs c;
     PollInterval := PollInterval c; DefaultTimeout := DefaultTimeout c |}.

Definition WithMaxRows (n : Z) : connOption := fun c =>
  if decide (n ≠ 0%Z) then
    {| Host := Host c; Port := Port c; AccessToken := AccessToken c;
       HTTPPath := HTTPPath c; MaxRows := n;
       QueryTimeoutSeconds := QueryTimeoutSeconds c; Catalog := Catalog c;
       Schema := Schema c; UserAgentEntry := UserAgentEntry c;
       SessionParams := SessionParams c;
       ThriftProtocolVersion := ThriftProtocolVersion c;
       CanUseMultipleCatalogs := CanUseMultipleCatalogs c;
       PollInterval := PollInterval c; DefaultTimeout := DefaultTimeout c |}
  else c.

Definition WithTimeout (n : Z) : connOption := fun c =>
  {| Host := Host c; Port := Port c; AccessToken := AccessToken c;
     HTTPPath := HTTPPath c; MaxRows := MaxRows c;
     QueryTimeoutSeconds := n; Catalog := Catalog c;
     Schema := Schema c; UserAgentEntry := UserAgentEntry c;
     SessionParams := SessionParams c;
     ThriftProtocolVersion := ThriftProtocolVersion c;
     CanUseMultipleCatalogs := CanUseMultipleCatalogs c;
     PollInterval := PollInterval c; DefaultTimeout := DefaultTimeout c |}.

Definition WithInitialNamespace (catalog schema : string) : connOption :=
  fun c =>
  {| Host := Host c; Port := Port c; AccessToken := AccessToken c;
     HTTPPath := HTTPPath c; MaxRows := MaxRows c;
     QueryTimeoutSeconds := QueryTimeoutSeconds c; Catalog := catalog;
     Schema := schema; UserAgentEntry := UserAgentEntry c;
     SessionParams := SessionParams c;
     ThriftProtocolVersion := ThriftProtocolVersion c;
     CanUseMultipleCatalogs := CanUseMultipleCatalogs c;
     PollInterval := PollInterval c; DefaultTimeout := DefaultTimeout c |}.

Definition WithUserAgentEntry (entry : string) : connOption := fun c =>
  {| Host := Host c; Port := Port c; AccessToken := AccessToken c;
     HTTPPath := HTTPPath c; MaxRows := MaxRows c;
     QueryTimeoutSeconds := QueryTimeoutSeconds c; Catalog := Catalog c;
     Schema := Schema c; UserAgentEntry := entry;
     SessionParams := SessionParams c;
     ThriftProtocolVersion := ThriftProtocolVersion c;
     CanUseMultipleCatalogs := CanUseMultipleCatalogs c;
     PollInterval := PollInterval c; DefaultTimeout := DefaultTimeout c |}.

Definition WithSessionParams (params : gmap string string) : connOption :=
  fun c =>
  {| Host := Host c; Port := Port c; AccessToken := AccessToken c;
     HTTPPath := HTTPPath c; MaxRows := MaxRows c;
     QueryTimeoutSeconds := QueryTimeoutSeconds c; Catalog := Catalog c;
     Schema := Schema c; UserAgentEntry := UserAgentEntry c;
     SessionParams := params;
     ThriftProtocolVersion := ThriftProtocolVersion c;
     CanUseMultipleCatalogs := CanUseMultipleCatalogs c;
     PollInterval := PollInterval c; DefaultTimeout := DefaultTimeout c |}.

(** ** Reading a trace *)

Definition execOf (ev : Event) : option (string * option error) :=
  match ev with
  | EvExecContext stmt res => Some (stmt, res)
  | _ => None
  end.

(** The statement executions of a trace, in order, with their results. *)
Definition execs (t : Trace) : list (string * option error) := omap execOf t.

(** The statements that were executed, in order. *)
Definition stmts (t : Trace) : list string := (execs t).*1.

Definition watchOf (ev : Event) : option (Z * Z) :=
  match ev with
  | EvWatch interval timeout => Some (interval, timeout)
  | _ => None
  end.

Definition openSessionOf (ev : Event) : option TOpenSessionReq :=
  match ev with
  | EvOpenSession req => Some req
  | _ => None
  end.

(** A statement execution that succeeded. *)
Definition okExec (kv : string * string) : Event :=
  EvExecContext (setStmt kv) None.

(** The calls every run makes once the client is there. *)
Definition opening (cfg : Config) : Trace :=
  [EvInitThriftClient cfg;
   EvWatch (PollInterval cfg) (DefaultTimeout cfg);
   EvOpenSession (openSessionReq cfg)].

(** What the executor hands back to [Connect] on line 51. *)
Definition delivered (env : Env) (tclient : ThriftServiceClient)
    (cfg : Config) : any * option error :=
  let '(res, err) := OpenSession env tclient (openSessionReq cfg) in
  match watchRace env with
  | OpFirst =>
      match err with
      | None => (res, None)
      | Some e => (AnyNil, Some e)
      end
  | TimeoutFirst e => (AnyNil, Some e)
  | CancelFirst e => (AnyNil, Some e)
  end.

(** The runs of [Connect], by the terminal state of the establishment
    they end in (4.3 of the specification).  [HandleAbsent] is the run
    that panics on line 61. *)
Inductive Established (env : Env) (c : connector) : Outcome -> Trace -> Prop :=
| ClientInitFailed cause :
    InitThriftClient env (connector_cfg c) = inl cause ->
    Established env c
      (Returned None (Some (wrapErr cause "error initializing thrift client")))
      [EvInitThriftClient (connector_cfg c)]
| SessionOpenFailed tclient res cause :
    InitThriftClient env (connector_cfg c) = inr tclient ->
    delivered env tclient (connector_cfg c) = (res, Some cause) ->
    Established env c
      (Returned None (Some (wrapErrf cause (connectMsg (connector_cfg c)))))
      (opening (connector_cfg c))
| InvalidResponse tclient res :
    InitThriftClient env (connector_cfg c) = inr tclient ->
    delivered env tclient (connector_cfg c) = (res, None) ->
    (forall p, res <> AnyOpenSessionResp p) ->
    Established env c (Returned None (Some invalidResponse))
      (opening (connector_cfg c))
| HandleAbsent tclient p :
    InitThriftClient env (connector_cfg c) = inr tclient ->
    delivered env tclient (connector_cfg c) = (AnyOpenSessionResp p, None) ->
    sessionGUID p = NilDeref ->
    Established env c Panicked (opening (connector_cfg c))
| ParameterApplyFailed tclient p guid pre kv post e :
    InitThriftClient env (connector_cfg c) = inr tclient ->
    delivered env tclient (connector_cfg c) = (AnyOpenSessionResp p, None) ->
    sessionGUID p = Val guid ->
    rangeMap (rangeSeed env) (SessionParams (connector_cfg c))
      = pre ++ kv :: post ->
    ExecContext env (opening (connector_cfg c) ++ (okExec <$> pre))
      {| id := SprintGuid guid; cfg := connector_cfg c;
         client := tclient; session := p |} (setStmt kv) = Some e ->
    Established env c (Returned None (Some e))
      (opening (connector_cfg c) ++ (okExec <$> pre)
         ++ [EvExecContext (setStmt kv) (Some e)])
| Ready tclient p guid :
    InitThriftClient env (connector_cfg c) = inr tclient ->
    delivered env tclient (connector_cfg c) = (AnyOpenSessionResp p, None) ->
    sessionGUID p = Val guid ->
    Established env c
      (Returned (Some {| id := SprintGuid guid; cfg := connector_cfg c;
                         client := tclient; session := p |}) None)
      (opening (connector_cfg c)
         ++ (okExec <$> rangeMap (rangeSeed env)
                          (SessionParams (connector_cfg c)))).

(** ** Error context *)



(** ** Sample runs *)

Definition sample_cfg (params : gmap string string) : Config :=
  {| Host := "example.cloud.databricks.com"; Port := 443%Z;
     AccessToken := "token"; HTTPPath := "/sql/1.0/endpoints/abc";
     MaxRows := 10000%Z; QueryTimeoutSeconds := 0%Z;
     Catalog := ""; Schema := "s1"; UserAgentEntry := "";
     SessionParams := params;
     ThriftProtocolVersion := 42247%Z; CanUseMultipleCatalogs := true;
     PollInterval := 1000000%Z; DefaultTimeout := 60000000000%Z |}.

Definition sample_guid : list Byte.byte :=
  [Byte.x01; Byte.xed; Byte.x0b; Byte.x7c; Byte.x5a; Byte.x17; Byte.x1f;
   Byte.x2e; Byte.x9d; Byte.x00; Byte.x4f; Byte.xa1; Byte.xb2; Byte.xc3;
   Byte.xfe; Byte.xff].

Definition other_guid : list Byte.byte :=
  [Byte.x01; Byte.xed; Byte.x0b; Byte.x7c; Byte.x5a; Byte.x17; Byte.x1f;
   Byte.x2e; Byte.x9d; Byte.x00; Byte.x4f; Byte.xa1; Byte.xb2; Byte.xc3;
   Byte.xfe; Byte.x0f].

(** A well-formed response: the handle and its identifier are there. *)
Definition sample_resp : TOpenSessionResp :=
  {| ServerProtocolVersion := 42247%Z;
     SessionHandle :=
       Some {| SessionId := Some {| GUID := sample_guid; Secret := [] |} |} |}.

(** A response of the right type whose session handle is nil. *)
Definition resp_without_handle : TOpenSessionResp :=
  {| ServerProtocolVersion := 42247%Z; SessionHandle := None |}.

(** A world in which everything succeeds; [seed] is the order the
    run-time picks for the [range] loop. *)
Definition env_ok (seed : nat) : Env :=
  {| InitThriftClient := fun _ => inr (mkClient 1);
     OpenSession := fun _ _ => (AnyOpenSessionResp (Some sample_resp), None);
     watchRace := OpFirst;
     rangeSeed := seed;
     ExecContext := fun _ _ _ => None |}.

(** The server answers with [res]. *)
Definition env_answering (res : any) : Env :=
  {| InitThriftClient := fun _ => inr (mkClient 1);
     OpenSession := fun _ _ => (res, None);
     watchRace := OpFirst;
     rangeSeed := 0;
     ExecContext := fun _ _ _ => None |}.



(** The statement execution number [K] (from 0) fails with [e]; the ones
    before it succeed. *)
Definition env_exec_fails (seed K : nat) (e : error) : Env :=
  {| InitThriftClient := fun _ => inr (mkClient 1);
     OpenSession := fun _ _ => (AnyOpenSessionResp (Some sample_resp), None);
     watchRace := OpFirst;
     rangeSeed := seed;
     ExecContext := fun t _ _ =>
       if decide (length (execs t) = K) then Some e else None |}.

Definition params_ab : gmap string string := {[ "a" := "1"; "b" := "2" ]}.

(** ** More readers of a trace *)

Definition initOf (ev : Event) : option Config :=
  match ev with
  | EvInitThriftClient cfg => Some cfg
  | _ => None
  end.


(** A response pointer that line 61 cannot read the GUID from: the
    pointer, its session handle or the identifier of the handle is nil. *)
Definition identityAbsent (p : option TOpenSessionResp) : Prop :=
  match p with
  | None => True
  | Some resp =>
      match SessionHandle resp with
      | None => True
      | Some h => SessionId h = None
      end
  end.

(** The string holds no backtick, the quoting character of line 71. *)
Fixpoint quote_free (s : string) : bool :=
  match s with
  | EmptyString => true
  | String ch rest =>
      if decide (ch = "`"%char) then false else quote_free rest
  end.

(** ** The exported options, as data *)

(** A call of one of the nine option constructors of lines 101-161, with
    its arguments. *)
Inductive OptionSpec : Type :=
| OServerHostname (host : string)
| OPort (port : Z)
| OAccessToken (token : string)
| OHTTPPath (path : string)
| OMaxRows (n : Z)
| OTimeout (n : Z)
| OInitialNamespace (catalog schema : string)
| OUserAgentEntry (entry : string)
| OSessionParams (params : gmap string string).

(** The [connOption] the call returns. *)
Definition applyOption (spec : OptionSpec) : connOption :=
  match spec with
  | OServerHostname host => WithServerHostname host
  | OPort port => WithPort port
  | OAccessToken token => WithAccessToken token
  | OHTTPPath path => WithHTTPPath path
  | OMaxRows n => WithMaxRows n
  | OTimeout n => WithTimeout n
  | OInitialNamespace catalog schema => WithInitialNamespace catalog schema
  | OUserAgentEntry entry => WithUserAgentEntry entry
  | OSessionParams params => WithSessionParams params
  end.

(** Which constructor a call uses. *)
Inductive OptionKind : Type :=
| KServerHostname | KPort | KAccessToken | KHTTPPath | KMaxRows
| KTimeout | KInitialNamespace | KUserAgentEntry | KSessionParams.

#[global] Instance OptionKind_eq_dec : EqDecision OptionKind.
Proof. solve_decision. Defined.

Definition optionKind (spec : OptionSpec) : OptionKind :=
  match spec with
  | OServerHostname _ => KServerHostname
  | OPort _ => KPort
  | OAccessToken _ => KAccessToken
  | OHTTPPath _ => KHTTPPath
  | OMaxRows _ => KMaxRows
  | OTimeout _ => KTimeout
  | OInitialNamespace _ _ => KInitialNamespace
  | OUserAgentEntry _ => KUserAgentEntry
  | OSessionParams _ => KSessionParams
  end.

(** The configuration lines 91-95 build from a list of options. *)
Definition configured (WithDefaults : Config) (options : list connOption)
  : Config :=
  foldl (fun cfg opt => opt cfg) WithDefaults options.

(** The fields of the configuration that the options of one kind write
    are the same in two configurations. *)
Definition sameField (k : OptionKind) (c1 c2 : Config) : Prop :=
  match k with
  | KServerHostname => Host c1 = Host c2
  | KPort => Port c1 = Port c2
  | KAccessToken => AccessToken c1 = AccessToken c2
  | KHTTPPath => HTTPPath c1 = HTTPPath c2
  | KMaxRows => MaxRows c1 = MaxRows c2
  | KTimeout => QueryTimeoutSeconds c1 = QueryTimeoutSeconds c2
  | KInitialNamespace => Catalog c1 = Catalog c2 /\ Schema c1 = Schema c2
  | KUserAgentEntry => UserAgentEntry c1 = UserAgentEntry c2
  | KSessionParams => SessionParams c1 = SessionParams c2
  end.

(** The fields no option writes are the same in two configurations. *)
Definition sameSessionOpenSettings (c1 c2 : Config) : Prop :=
  ThriftProtocolVersion c1 = ThriftProtocolVersion c2 /\
  CanUseMultipleCatalogs c1 = CanUseMultipleCatalogs c2 /\
  PollInterval c1 = PollInterval c2 /\
  DefaultTimeout c1 = DefaultTimeout c2.

(** The row limit a call asks for, when it asks for one that line 127 lets
    through. *)
Definition maxRowsRequest (spec : OptionSpec) : option Z :=
  match spec with
  | OMaxRows n => if decide (n ≠ 0%Z) then Some n else None
  | _ => None
  end.

(** * Properties *)

(** ** The replay loop *)

Lemma replay_run (env : Env) (c : conn) (kvs : list (string * string))
    (t : Trace) :
  replay env c kvs t = (None, t ++ (okExec <$> kvs)) \/
  exists pre kv post e,
    kvs = pre ++ kv :: post /\
    ExecContext env (t ++ (okExec <$> pre)) c (setStmt kv) = Some e /\
    replay env c kvs t
      = (Some e, t ++ (okExec <$> pre) ++ [EvExecContext (setStmt kv) (Some e)]).
Proof.
  revert t. induction kvs as [|kv rest IH]; intros t.
  - left. cbn. by rewrite app_nil_r.
  - cbn [replay]. unfold mbind, M_bind, execContext, call.
    destruct (ExecContext env t c (setStmt kv)) as [e|] eqn:Hexec.
    + right. exists [], kv, rest, e. cbn. by rewrite app_nil_r.
    + destruct (IH (t ++ [EvExecContext (setStmt kv) None]))
        as [Hok | (pre & kv' & post & e & -> & Hexec' & Hfail)].
      * left. rewrite Hok. cbn. by rewrite <- app_assoc.
      * right. exists (kv :: pre), kv', post, e. split; [done|].
        rewrite Hfail. cbn. rewrite <- app_assoc in Hexec' |- *. done.
Qed.

(** Every run of [Connect] ends in one of the terminal states. *)
Lemma Connect_Established (env : Env) (c : connector) :
  Established env c (run (Connect env c)).1 (run (Connect env c)).2.
Proof.
  unfold run, Connect, Watch, initThriftClient, openSession, call.
  unfold mbind, M_bind, mret, M_ret. cbn.
  destruct (InitThriftClient env (connector_cfg c)) as [cause|tclient] eqn:Hinit.
  { cbn. by apply ClientInitFailed. }
  pose proof (eq_refl (delivered env tclient (connector_cfg c))) as Hd.
  unfold delivered at 2 in Hd.
  destruct (OpenSession env tclient (openSessionReq (connector_cfg c)))
    as [res err] eqn:Hopen.
  destruct (watchRace env) as [|e|e] eqn:Hrace; cbn;
    try (eapply SessionOpenFailed; eauto; fail).
  destruct err as [e|]; cbn.
  { eapply SessionOpenFailed; eauto. }
  destruct res as [|p|descr]; cbn;
    try (eapply InvalidResponse; eauto; congruence).
  destruct (sessionGUID p) as [guid|] eqn:Hguid; cbn.
  2: { eapply HandleAbsent; eauto. }
  match goal with
  | |- context [replay env ?cn ?kvs ?t] =>
      destruct (replay_run env cn kvs t)
        as [Hok | (pre & kv & post & e & Hsplit & Hexec & Hfail)]
  end.
  - rewrite Hok. cbn. eapply Ready; eauto.
  - rewrite Hfail. cbn. eapply ParameterApplyFailed; eauto.
Qed.

(** Case analysis on the terminal state of the run of [Connect env c]. *)
Ltac established env c :=
  let H := fresh "Hrun" in
  pose proof (Connect_Established env c) as H;
  destruct (run (Connect env c)) as [? ?]; cbn [fst snd] in *;
  inversion H; clear H; simplify_eq;
  repeat (match goal with
          | H1 : ?x = _, H2 : ?x = _ |- _ => rewrite H1 in H2
          end; simplify_eq).

(** ** Reading the traces of the terminal states *)

Lemma execs_okExec (kvs : list (string * string)) :
  execs (okExec <$> kvs) = (fun kv => (setStmt kv, None)) <$> kvs.
Proof.
  induction kvs as [|kv kvs IH]; [done|].
  cbn. unfold execs in IH. by rewrite IH.
Qed.

Lemma execs_opening (cfg : Config) (t : Trace) :
  execs (opening cfg ++ t) = execs t.
Proof. done. Qed.

Lemma watchOf_okExec (kvs : list (string * string)) :
  omap watchOf (okExec <$> kvs) = [].
Proof. induction kvs as [|kv kvs IH]; [done|]. by cbn. Qed.

Lemma openSessionOf_okExec (kvs : list (string * string)) :
  omap openSessionOf (okExec <$> kvs) = [].
Proof. induction kvs as [|kv kvs IH]; [done|]. by cbn. Qed.

Lemma rangeMap_Permutation (seed : nat) (m : gmap string string) :
  rangeMap seed m ≡ₚ map_to_list m.
Proof.
  unfold rangeMap.
  destruct (permutations (map_to_list m) !! seed) as [l|] eqn:Hl; [|done].
  symmetry. apply permutations_Permutation.
  by eapply list_elem_of_lookup_2.
Qed.

Lemma length_rangeMap (seed : nat) (m : gmap string string) :
  length (rangeMap seed m) = size m.
Proof. by rewrite rangeMap_Permutation, length_map_to_list. Qed.

(** ** Response validation *)

(** A delivered result that is not an open-session response is refused
    with the invalid-response error, and no statement is executed. *)
Lemma Connect_rejects_other_shapes (env : Env) (c : connector)
    (tclient : ThriftServiceClient) (res : any) :
  InitThriftClient env (connector_cfg c) = inr tclient ->
  delivered env tclient (connector_cfg c) = (res, None) ->
  (forall p, res <> AnyOpenSessionResp p) ->
  run (Connect env c)
    = (Returned None (Some invalidResponse), opening (connector_cfg c)).
Proof.
  intros Hinit Hd Hshape. established env c; try done.
  all: by edestruct Hshape.
Qed.

(** A response of the right type without a session handle makes line 61
    dereference nil: [Connect] returns nothing, it panics. *)
Lemma Connect_absent_handle_panics (env : Env) (c : connector)
    (tclient : ThriftServiceClient) (resp : TOpenSessionResp) :
  InitThriftClient env (connector_cfg c) = inr tclient ->
  delivered env tclient (connector_cfg c)
    = (AnyOpenSessionResp (Some resp), None) ->
  SessionHandle resp = None ->
  run (Connect env c) = (Panicked, opening (connector_cfg c)).
Proof.
  intros Hinit Hd Hnil.
  assert (sessionGUID (Some resp) = NilDeref) as Hguid.
  { cbn. by rewrite Hnil. }
  established env c; congruence.
Qed.

(** C1: the response has the expected type and its session handle is
    absent, and no session parameter is configured.  The claim wants the
    invalid-response error; [Connect] panics on line 61 instead, so it
    returns neither that error nor anything else. *)
Theorem C1_absent_handle_not_rejected :
  let env := env_answering (AnyOpenSessionResp (Some resp_without_handle)) in
  let c := {| connector_cfg := sample_cfg ∅ |} in
  (run (Connect env c)).1 = Panicked /\
  (run (Connect env c)).1 <> Returned None (Some invalidResponse).
Proof.
  intros env c.
  rewrite (Connect_absent_handle_panics env c (mkClient 1) resp_without_handle);
    done.
Qed.

(** ** The open-session request *)

(** The executor and the remote call are reached exactly when the client
    could be built, and then once each. *)
Lemma Connect_opening_events (env : Env) (c : connector) :
  omap watchOf (run (Connect env c)).2
    = match InitThriftClient env (connector_cfg c) with
      | inl _ => []
      | inr _ =>
          [(PollInterval (connector_cfg c), DefaultTimeout (connector_cfg c))]
      end /\
  omap openSessionOf (run (Connect env c)).2
    = match InitThriftClient env (connector_cfg c) with
      | inl _ => []
      | inr _ => [openSessionReq (connector_cfg c)]
      end.
Proof.
  established env c;
    match goal with H : InitThriftClient _ _ = _ |- _ => rewrite H end;
    cbn; rewrite ?omap_app, ?watchOf_okExec, ?openSessionOf_okExec; done.
Qed.

(** C2: in the open-session request that [Connect] submits, the catalog
    and the schema are resolved independently: the empty string gives an
    absent identifier, never a present identifier holding the empty
    string, and a non-empty string gives a present identifier holding
    exactly that string. *)
Theorem C2_namespace_resolution (env : Env) (c : connector)
    (req : TOpenSessionReq) :
  req ∈ omap openSessionOf (run (Connect env c)).2 ->
  exists ns,
    InitialNamespace req = Some ns /\
    (Catalog (connector_cfg c) = "" -> CatalogName ns = None) /\
    (Catalog (connector_cfg c) <> "" ->
       CatalogName ns = Some (Catalog (connector_cfg c))) /\
    (Schema (connector_cfg c) = "" -> SchemaName ns = None) /\
    (Schema (connector_cfg c) <> "" ->
       SchemaName ns = Some (Schema (connector_cfg c))) /\
    CatalogName ns <> Some "" /\ SchemaName ns <> Some "".
Proof.
  intros Hreq.
  assert (req = openSessionReq (connector_cfg c)) as ->.
  { rewrite (proj2 (Connect_opening_events env c)) in Hreq.
    destruct (InitThriftClient env (connector_cfg c)).
    - by apply elem_of_nil in Hreq.
    - by apply list_elem_of_singleton in Hreq. }
  eexists. split; [done|]. cbn. unfold resolveIdentifier, TIdentifierPtr.
  repeat case_decide; naive_solver.
Qed.

Lemma C2_namespace_resolution_witness :
  exists ns,
    InitialNamespace (openSessionReq (sample_cfg ∅)) = Some ns /\
    CatalogName ns = None /\ SchemaName ns = Some "s1".
Proof.
  destruct (C2_namespace_resolution (env_ok 0)
              {| connector_cfg := sample_cfg ∅ |}
              (openSessionReq (sample_cfg ∅)))
    as (ns & Hns & Hc1 & _ & _ & Hs2 & _).
  - vm_compute. left.
  - exists ns. split; [exact Hns|]. split; [by apply Hc1|by apply Hs2].
Defined.

(** C8: once the client is there, [Connect] invokes the bounded-wait
    executor once, with the poll interval and the default timeout of the
    configuration, and submits through it one open-session request, which
    carries the configured protocol version, an empty configuration map,
    the resolved namespace and the configured multi-catalog flag. *)
Theorem C8_open_session_request (env : Env) (c : connector)
    (tclient : ThriftServiceClient) :
  InitThriftClient env (connector_cfg c) = inr tclient ->
  omap watchOf (run (Connect env c)).2
    = [(PollInterval (connector_cfg c), DefaultTimeout (connector_cfg c))] /\
  exists req,
    omap openSessionOf (run (Connect env c)).2 = [req] /\
    ClientProtocol req = ThriftProtocolVersion (connector_cfg c) /\
    Configuration req = ∅ /\
    InitialNamespace req =
      Some {| CatalogName :=
                if decide (Catalog (connector_cfg c) = "") then None
                else Some (Catalog (connector_cfg c));
              SchemaName :=
                if decide (Schema (connector_cfg c) = "") then None
                else Some (Schema (connector_cfg c)) |} /\
    ReqCanUseMultipleCatalogs req
      = Some (CanUseMultipleCatalogs (connector_cfg c)).
Proof.
  intros Hinit.
  assert (omap watchOf (run (Connect env c)).2
            = [(PollInterval (connector_cfg c), DefaultTimeout (connector_cfg c))]
          /\ omap openSessionOf (run (Connect env c)).2
            = [openSessionReq (connector_cfg c)]) as [Hw Ho].
  { destruct (Connect_opening_events env c) as [Hw Ho].
    by rewrite Hinit in Hw, Ho. }
  split; [exact Hw|]. exists (openSessionReq (connector_cfg c)).
  split; [exact Ho|]. cbn. unfold resolveIdentifier, TIdentifierPtr.
  repeat split. by repeat case_decide.
Qed.

Lemma C8_open_session_request_witness :
  omap watchOf (run (Connect (env_ok 0) {| connector_cfg := sample_cfg ∅ |})).2
    = [(1000000%Z, 60000000000%Z)].
Proof.
  apply (C8_open_session_request (env_ok 0)
           {| connector_cfg := sample_cfg ∅ |} (mkClient 1)).
  reflexivity.
Defined.

(** ** Replay of the session parameters *)

Lemma execs_app (t1 t2 : Trace) : execs (t1 ++ t2) = execs t1 ++ execs t2.
Proof. apply omap_app. Qed.

(** The statement executions of a run that stops at a failing statement:
    the ones before it succeeded, and it is the last. *)
Lemma execs_failed (cfg : Config) (pre : list (string * string))
    (kv : string * string) (e : error) :
  execs (opening cfg ++ (okExec <$> pre) ++ [EvExecContext (setStmt kv) (Some e)])
    = ((fun kv => (setStmt kv, None)) <$> pre) ++ [(setStmt kv, Some e)].
Proof. by rewrite execs_opening, execs_app, execs_okExec. Qed.

Lemma execs_ready (cfg : Config) (kvs : list (string * string)) :
  execs (opening cfg ++ (okExec <$> kvs))
    = (fun kv => (setStmt kv, None)) <$> kvs.
Proof. by rewrite execs_opening, execs_okExec. Qed.

(** A failed execution at position [K] of such a list is its last entry. *)
Lemma lookup_failed_exec (pre : list (string * string))
    (kv : string * string) (e E : error) (K : nat) (stmt : string) :
  (((fun kv => (setStmt kv, None)) <$> pre) ++ [(setStmt kv, Some e)]) !! K
    = Some (stmt, Some E) ->
  K = length pre /\ E = e.
Proof.
  intros Hk. apply lookup_app_Some in Hk as [Hk | [Hlen Hk]].
  - rewrite list_lookup_fmap in Hk.
    destruct (pre !! K); cbn in Hk; congruence.
  - rewrite length_fmap in Hlen.
    destruct (K - length ((fun kv => (setStmt kv, None : option error)) <$> pre))
      as [|n] eqn:Hn; cbn in Hk; [|done].
    rewrite length_fmap in Hn. split; [lia | congruence].
Qed.

(** C3: if the K-th statement execution of a run (counting from 0 here)
    fails with error [E], then [Connect] returns exactly [E] and no
    Connection, the run executes K+1 statements in all, which are the
    first K+1 of the replay sequence, and nothing after them. *)
Theorem C3_first_failure_aborts (env : Env) (c : connector) (K : nat)
    (stmt : string) (E : error) :
  execs (run (Connect env c)).2 !! K = Some (stmt, Some E) ->
  (run (Connect env c)).1 = Returned None (Some E) /\
  length (execs (run (Connect env c)).2) = S K /\
  stmts (run (Connect env c)).2
    = take (S K) (setStmt <$> rangeMap (rangeSeed env)
                                (SessionParams (connector_cfg c))) /\
  (S K <= size (SessionParams (connector_cfg c)))%nat.
Proof.
  intros Hk. rewrite <- (length_rangeMap (rangeSeed env)).
  unfold stmts. established env c; try done.
  - rewrite execs_failed in Hk |- *.
    apply lookup_failed_exec in Hk as [-> ->].
    match goal with H : rangeMap _ _ = _ |- _ => rewrite H end.
    rewrite length_app, length_fmap, fmap_app, !length_app. cbn.
    repeat split; [lia | | lia].
    rewrite fmap_app, <- list_fmap_compose.
    replace (S (length pre)) with (length (setStmt <$> pre) + 1)%nat
      by (rewrite length_fmap; lia).
    by rewrite take_app_add.
  - rewrite execs_ready, list_lookup_fmap in Hk.
    destruct (rangeMap _ _ !! K); cbn in Hk; congruence.
Qed.

Lemma C3_first_failure_aborts_witness :
  (run (Connect (env_exec_fails 0 1 (ErrNew "E"))
          {| connector_cfg := sample_cfg params_ab |})).1
    = Returned None (Some (ErrNew "E")) /\
  stmts (run (Connect (env_exec_fails 0 1 (ErrNew "E"))
                {| connector_cfg := sample_cfg params_ab |})).2
    = ["SET `a` = `1`;"; "SET `b` = `2`;"].
Proof.
  destruct (C3_first_failure_aborts (env_exec_fails 0 1 (ErrNew "E"))
              {| connector_cfg := sample_cfg params_ab |} 1
              "SET `b` = `2`;" (ErrNew "E")) as (Ho & _ & Hs & _).
  - vm_compute. reflexivity.
  - split; [exact Ho|]. rewrite Hs. vm_compute. reflexivity.
Defined.

(** C4: a successful [Connect] over a mapping of N session parameters has
    executed exactly N statements, one for each (key, value) pair of the
    mapping, each the text [SET `key` = `value`;] with the key and the
    value put between backticks as they are; all of them succeeded; with
    no parameter no statement is executed. *)
Theorem C4_success_replays_all (env : Env) (c : connector) (cn : conn) :
  (run (Connect env c)).1 = Returned (Some cn) None ->
  length (stmts (run (Connect env c)).2) = size (SessionParams (connector_cfg c)) /\
  stmts (run (Connect env c)).2
    ≡ₚ (fun kv => "SET `" +:+ kv.1 +:+ "` = `" +:+ kv.2 +:+ "`;")
         <$> map_to_list (SessionParams (connector_cfg c)) /\
  Forall (fun x => x.2 = None) (execs (run (Connect env c)).2) /\
  (SessionParams (connector_cfg c) = ∅ -> stmts (run (Connect env c)).2 = []).
Proof.
  intros Hok. unfold stmts. established env c.
  rewrite execs_ready, <- list_fmap_compose.
  split; [by rewrite length_fmap, length_rangeMap|].
  split; [by rewrite rangeMap_Permutation|].
  split; [by apply Forall_fmap, Forall_true|].
  intros ->.
  assert (rangeMap (rangeSeed env) ∅ = []) as ->; [|done].
  apply nil_length_inv. by rewrite length_rangeMap.
Qed.

Lemma C4_success_replays_all_witness :
  length (stmts (run (Connect (env_ok 1)
                        {| connector_cfg := sample_cfg params_ab |})).2) = 2%nat.
Proof.
  eapply (C4_success_replays_all (env_ok 1)
            {| connector_cfg := sample_cfg params_ab |}).
  vm_compute. reflexivity.
Defined.

(** The statements of a successful run are the replay sequence. *)
Lemma stmts_ready (env : Env) (c : connector) (cn : conn) :
  (run (Connect env c)).1 = Returned (Some cn) None ->
  stmts (run (Connect env c)).2
    = setStmt <$> rangeMap (rangeSeed env) (SessionParams (connector_cfg c)).
Proof.
  intros Hok. unfold stmts. established env c.
  by rewrite execs_ready, <- list_fmap_compose.
Qed.




(** ** Errors *)

Lemma string_app_cons (x : ascii) (a b : string) :
  String x a +:+ b = String x (a +:+ b).
Proof. reflexivity. Qed.









(** ** Connection or error *)

(** What [Connect] returns is a Connection without error or an error
    without Connection. *)
Lemma Connect_returned_exclusive (env : Env) (c : connector)
    (o : option conn) (e : option error) :
  (run (Connect env c)).1 = Returned o e ->
  (o = None /\ is_Some e) \/ (is_Some o /\ e = None).
Proof. intros Hret. established env c; eauto. Qed.

(** A Connection is returned exactly when the client was built, the
    session open delivered a response with its handle and identifier, and
    every session parameter was applied. *)
Lemma Connect_ready_iff (env : Env) (c : connector) :
  (exists cn, (run (Connect env c)).1 = Returned (Some cn) None) <->
  (exists tclient p guid,
     InitThriftClient env (connector_cfg c) = inr tclient /\
     delivered env tclient (connector_cfg c) = (AnyOpenSessionResp p, None) /\
     sessionGUID p = Val guid /\
     Forall (fun x => x.2 = None) (execs (run (Connect env c)).2)).
Proof.
  split.
  - intros [cn Hret]. established env c. do 3 eexists.
    repeat split; try done.
    rewrite execs_ready. by apply Forall_fmap, Forall_true.
  - intros (tclient & p & guid & Hinit & Hd & Hguid & Hall).
    established env c; try done.
    + match goal with H : forall p, _ <> _ |- _ => by edestruct H end.
    + rewrite execs_failed in Hall.
      apply Forall_app in Hall as [_ Hall].
      apply Forall_inv in Hall. discriminate Hall.
    + by eexists.
Qed.

(** On success the display id of the Connection is the rendering of the
    GUID of the session handle. *)
Lemma Connect_id_rendered (env : Env) (c : connector) (cn : conn) :
  (run (Connect env c)).1 = Returned (Some cn) None ->
  exists guid, sessionGUID (session cn) = Val guid /\ id cn = SprintGuid guid.
Proof. intros Hret. established env c. by eexists. Qed.

(** C7: the response has the expected type and its session handle is
    absent, with two session parameters configured.  Response validation
    fails here, and the claim wants a nil Connection with a non-nil error;
    [Connect] returns nothing at all, it panics on line 61, before any
    parameter is applied. *)
Theorem C7_absent_handle_returns_nothing :
  let env := env_answering (AnyOpenSessionResp (Some resp_without_handle)) in
  let c := {| connector_cfg := sample_cfg params_ab |} in
  (run (Connect env c)).1 = Panicked /\
  (forall o e, (run (Connect env c)).1 <> Returned o e) /\
  execs (run (Connect env c)).2 = [].
Proof.
  intros env c.
  rewrite (Connect_absent_handle_panics env c (mkClient 1) resp_without_handle);
    done.
Qed.

(** ** Session identity rendering *)

Lemma unhex_hexdigit (b : Byte.byte) :
  unhex (hexdigit (Byte.to_N b / 16)) (hexdigit (Byte.to_N b mod 16)) = Some b.
Proof. destruct b; vm_compute; reflexivity. Qed.

Lemma hex_inj (l1 l2 : list Byte.byte) : hex l1 = hex l2 -> l1 = l2.
Proof.
  revert l2. induction l1 as [|a l1 IH]; intros [|b l2] Heq;
    try discriminate; [done|].
  cbn in Heq. injection Heq as Hhi Hlo Hrest.
  f_equal; [|by apply IH].
  apply (inj Some).
  by rewrite <- (unhex_hexdigit a), <- (unhex_hexdigit b), Hhi, Hlo.
Qed.

Lemma length_hex (l : list Byte.byte) :
  String.length (hex l) = (2 * length l)%nat.
Proof. induction l as [|b l IH]; [done|]. cbn. rewrite IH. lia. Qed.

Lemma string_app_inj_length (a a' b b' : string) :
  String.length a = String.length a' ->
  a +:+ b = a' +:+ b' -> a = a' /\ b = b'.
Proof.
  revert a'. induction a as [|x a IH]; intros [|x' a'] Hlen Heq;
    try discriminate; [done|].
  rewrite !string_app_cons in Heq. injection Heq as -> Heq.
  injection Hlen as Hlen. destruct (IH a' Hlen Heq) as [-> ->]. done.
Qed.

Lemma length_subslice (lo hi : nat) (g1 g2 : list Byte.byte) :
  length g1 = length g2 ->
  String.length (hex (subslice lo hi g1)) = String.length (hex (subslice lo hi g2)).
Proof.
  intros Hlen. unfold subslice.
  by rewrite !length_hex, !length_take, !length_drop, Hlen.
Qed.

(** A group and the dash after it can be taken off both renderings. *)
Lemma group_inj (lo hi : nat) (g1 g2 : list Byte.byte) (rest1 rest2 : string) :
  length g1 = length g2 ->
  hex (subslice lo hi g1) +:+ "-" +:+ rest1
    = hex (subslice lo hi g2) +:+ "-" +:+ rest2 ->
  subslice lo hi g1 = subslice lo hi g2 /\ rest1 = rest2.
Proof.
  intros Hlen Heq.
  apply string_app_inj_length in Heq as [Hgroup Hrest];
    [|by apply length_subslice].
  split; [by apply hex_inj|]. by injection Hrest.
Qed.

(** A 16-byte slice is its five groups put together. *)
Lemma groups_of_guid (g : list Byte.byte) :
  length g = 16%nat ->
  g = subslice 0 4 g ++ subslice 4 6 g ++ subslice 6 8 g
        ++ subslice 8 10 g ++ subslice 10 16 g.
Proof.
  intros Hlen. do 17 (destruct g as [|? g]; try discriminate Hlen).
  reflexivity.
Qed.

(** C9: the rendering of session identities is a function, so equal
    identities render equally, and on 16-byte identities it is injective:
    two identities that render to the same text are the same. *)
Theorem C9_SprintGuid_injective (g1 g2 : list Byte.byte) :
  length g1 = 16%nat -> length g2 = 16%nat ->
  (SprintGuid g1 = SprintGuid g2 <-> g1 = g2).
Proof.
  intros Hlen1 Hlen2. split; [|by intros ->].
  unfold SprintGuid. rewrite !decide_True by done. intros Heq.
  assert (length g1 = length g2) as Hlen by congruence.
  apply group_inj in Heq as [H1 Heq]; [|done].
  apply group_inj in Heq as [H2 Heq]; [|done].
  apply group_inj in Heq as [H3 Heq]; [|done].
  apply group_inj in Heq as [H4 Heq]; [|done].
  apply hex_inj in Heq.
  rewrite (groups_of_guid g1 Hlen1), (groups_of_guid g2 Hlen2).
  congruence.
Qed.

Lemma C9_SprintGuid_injective_witness :
  SprintGuid sample_guid = SprintGuid other_guid <-> sample_guid = other_guid.
Proof. apply (C9_SprintGuid_injective sample_guid other_guid); reflexivity. Defined.

(** ** NewConnector *)


(** No validation: a connector is handed back for a configuration with an
    empty host and a negative port, and a later option overrides an
    earlier one. *)
Example NewConnector_unvalidated :
  let r := NewConnector (sample_cfg ∅)
             [WithPort 443; WithServerHostname ""; WithPort (-1);
              WithMaxRows 0; WithInitialNamespace "c1" ""] in
  (connector_cfg <$> r.1) = Some (WithInitialNamespace "c1" ""
                                 (WithPort (-1)
                                    (WithServerHostname "" (sample_cfg ∅)))) /\
  r.2 = None.
Proof. split; reflexivity. Qed.

(** Backticks in a key or a value are put into the statement as they
    are. *)
Example setStmt_unescaped :
  setStmt ("a` = `x`; DROP", "1") = "SET `a` = `x`; DROP` = `1`;".
Proof. reflexivity. Qed.

(** Scenario A of the specification: catalog [c1], schema [s1], no session
    parameter, and the remote call succeeds with a handle: the Connection
    carries the rendering of the handle's GUID, the request names both
    identifiers, and no statement is executed. *)
Example scenario_A :
  let cfg0 := WithInitialNamespace "c1" "s1" (sample_cfg ∅) in
  let r := run (Connect (env_ok 0) {| connector_cfg := cfg0 |}) in
  (exists cn, r.1 = Returned (Some cn) None /\
              id cn = "01ed0b7c-5a17-1f2e-9d00-4fa1b2c3feff") /\
  (InitialNamespace <$> omap openSessionOf r.2)
    = [Some {| CatalogName := Some "c1"; SchemaName := Some "s1" |}] /\
  stmts r.2 = [].
Proof.
  split; [|split; vm_compute; reflexivity].
  eexists. split; vm_compute; reflexivity.
Qed.

(** Scenario C of the specification: parameters [a] and [b] visited in
    that order, the second statement fails with [E]: [E] is returned, and
    one statement was executed before the failing one. *)
Example scenario_C :
  let r := run (Connect (env_exec_fails 0 1 (ErrNew "E"))
                  {| connector_cfg := sample_cfg params_ab |}) in
  r.1 = Returned None (Some (ErrNew "E")) /\
  execs r.2 = [("SET `a` = `1`;", None); ("SET `b` = `2`;", Some (ErrNew "E"))].
Proof. split; vm_compute; reflexivity. Qed.

(** * Further properties of [Connect] *)



(** X2: a statement is executed only on an opened and validated session:
    if a run executes any statement, the client was built and the executor
    delivered, without error, a response from which line 61 could read
    the GUID. *)
Theorem Connect_statements_need_session (env : Env) (c : connector) :
  execs (run (Connect env c)).2 <> [] ->
  exists tclient p guid,
    InitThriftClient env (connector_cfg c) = inr tclient /\
    delivered env tclient (connector_cfg c) = (AnyOpenSessionResp p, None) /\
    sessionGUID p = Val guid.
Proof. intros Hexecs. established env c; try done; by do 3 eexists. Qed.

Lemma Connect_statements_need_session_witness :
  exists tclient p guid,
    InitThriftClient (env_ok 0) (sample_cfg params_ab) = inr tclient /\
    delivered (env_ok 0) tclient (sample_cfg params_ab)
      = (AnyOpenSessionResp p, None) /\
    sessionGUID p = Val guid.
Proof.
  apply (Connect_statements_need_session (env_ok 0)
           {| connector_cfg := sample_cfg params_ab |}).
  vm_compute. discriminate.
Defined.

(** X3: in every run, failed or not, the statements executed are an
    initial part of the replay sequence, at most one for each session
    parameter, and every execution but the last one succeeded. *)
Theorem Connect_statements_prefix (env : Env) (c : connector) :
  stmts (run (Connect env c)).2
    `prefix_of` (setStmt <$> rangeMap (rangeSeed env)
                               (SessionParams (connector_cfg c))) /\
  Forall (fun x => x.2 = None)
    (take (length (execs (run (Connect env c)).2) - 1)
       (execs (run (Connect env c)).2)) /\
  (length (execs (run (Connect env c)).2)
     <= size (SessionParams (connector_cfg c)))%nat.
Proof.
  rewrite <- (length_rangeMap (rangeSeed env)). unfold stmts.
  established env c;
    try (cbn; repeat split; [apply prefix_nil | constructor | lia]).
  - rewrite execs_failed.
    match goal with H : rangeMap _ _ = _ |- _ => rewrite H end.
    rewrite !fmap_app, <- list_fmap_compose, !length_app, !length_fmap. cbn.
    repeat split.
    + exists (setStmt <$> post). by rewrite <- app_assoc.
    + replace (length pre + 1 - 1)%nat
        with (length ((fun kv => (setStmt kv, None : option error)) <$> pre))
        by (rewrite length_fmap; lia).
      rewrite take_app_length. by apply Forall_fmap, Forall_true.
    + lia.
  - rewrite execs_ready, <- list_fmap_compose, length_fmap.
    repeat split; [done| |done].
    apply Forall_take. by apply Forall_fmap, Forall_true.
Qed.

Lemma sessionGUID_NilDeref (p : option TOpenSessionResp) :
  sessionGUID p = NilDeref <-> identityAbsent p.
Proof.
  destruct p as [[v [[sid]|]]|]; cbn; [|done..].
  destruct sid; cbn; split; done.
Qed.

(** X4: [Connect] panics exactly when the client was built and the
    executor delivered, without error, a response pointer of the expected
    type that is nil, or whose session handle is nil, or whose handle has
    a nil identifier. *)
Theorem Connect_panics_iff (env : Env) (c : connector) :
  (run (Connect env c)).1 = Panicked <->
  exists tclient p,
    InitThriftClient env (connector_cfg c) = inr tclient /\
    delivered env tclient (connector_cfg c) = (AnyOpenSessionResp p, None) /\
    identityAbsent p.
Proof.
  split.
  - intros Hpanic. established env c. do 2 eexists.
    repeat split; try done. by apply sessionGUID_NilDeref.
  - intros (tclient & p & Hinit & Hd & Habsent).
    apply sessionGUID_NilDeref in Habsent.
    established env c; try done.
    match goal with H : forall p, _ <> _ |- _ => by edestruct H end.
Qed.

(** X5: the Connection of a successful run holds the configuration of the
    connector, the client that [client.InitThriftClient] returned, the
    response the executor delivered, and as its id the rendering of the
    GUID of that response's session handle. *)
Theorem Connect_ready_fields (env : Env) (c : connector) (cn : conn) :
  (run (Connect env c)).1 = Returned (Some cn) None ->
  cfg cn = connector_cfg c /\
  InitThriftClient env (connector_cfg c) = inr (client cn) /\
  delivered env (client cn) (connector_cfg c)
    = (AnyOpenSessionResp (session cn), None) /\
  exists resp h hid,
    session cn = Some resp /\ SessionHandle resp = Some h /\
    SessionId h = Some hid /\ id cn = SprintGuid (GUID hid).
Proof.
  intros Hret. established env c. repeat split; try done.
  match goal with H : sessionGUID ?p = Val _ |- _ =>
    destruct p as [[v [[[hid|]]|]]|]; cbn in H; simplify_eq end.
  by do 3 eexists.
Qed.

Lemma Connect_ready_fields_witness :
  exists cn,
    (run (Connect (env_ok 0) {| connector_cfg := sample_cfg ∅ |})).1
      = Returned (Some cn) None /\
    cfg cn = sample_cfg ∅ /\ client cn = mkClient 1 /\
    id cn = "01ed0b7c-5a17-1f2e-9d00-4fa1b2c3feff".
Proof.
  eexists. split; [vm_compute; reflexivity|].
  destruct (Connect_ready_fields (env_ok 0)
              {| connector_cfg := sample_cfg ∅ |}
              {| id := SprintGuid sample_guid; cfg := sample_cfg ∅;
                 client := mkClient 1; session := Some sample_resp |})
    as (Hcfg & _ & _ & _).
  - vm_compute. reflexivity.
  - split; [exact Hcfg|]. split; vm_compute; reflexivity.
Defined.

(** * Further properties of the options *)

Lemma NewConnector_configured (d : Config) (options : list connOption) :
  NewConnector d options
    = (Some {| connector_cfg := configured d options |}, None).
Proof. reflexivity. Qed.

Lemma configured_cons (d : Config) (opt : connOption)
    (options : list connOption) :
  configured d (opt :: options) = configured (opt d) options.
Proof. reflexivity. Qed.

Lemma configured_app (d : Config) (options1 options2 : list connOption) :
  configured d (options1 ++ options2)
    = configured (configured d options1) options2.
Proof. apply foldl_app. Qed.

(** Unfold the option constructors on a configuration given field by
    field. *)
Ltac option_cases :=
  cbn;
  unfold WithServerHostname, WithPort, WithAccessToken, WithHTTPPath,
    WithMaxRows, WithTimeout, WithInitialNamespace, WithUserAgentEntry,
    WithSessionParams;
  repeat case_decide; cbn.

Lemma applyOption_settings (spec : OptionSpec) (c : Config) :
  sameSessionOpenSettings (applyOption spec c) c.
Proof. destruct spec; option_cases; done. Qed.

Lemma applyOption_frame (spec : OptionSpec) (k : OptionKind) (c : Config) :
  optionKind spec <> k -> sameField k (applyOption spec c) c.
Proof. destruct spec, k; intros Hk; option_cases; done. Qed.

Lemma sameField_trans (k : OptionKind) (c1 c2 c3 : Config) :
  sameField k c1 c2 -> sameField k c2 c3 -> sameField k c1 c3.
Proof. destruct k; cbn; intuition congruence. Qed.

Lemma configured_settings (d : Config) (specs : list OptionSpec) :
  sameSessionOpenSettings (configured d (applyOption <$> specs)) d.
Proof.
  revert d. induction specs as [|spec specs IH]; intros d; [done|].
  rewrite fmap_cons, configured_cons.
  destruct (IH (applyOption spec d)) as (H1 & H2 & H3 & H4).
  destruct (applyOption_settings spec d) as (G1 & G2 & G3 & G4).
  repeat split; congruence.
Qed.

Lemma configured_frame (d : Config) (specs : list OptionSpec)
    (k : OptionKind) :
  Forall (fun spec => optionKind spec <> k) specs ->
  sameField k (configured d (applyOption <$> specs)) d.
Proof.
  revert d. induction specs as [|spec specs IH]; intros d Hall.
  - destruct k; done.
  - apply Forall_cons in Hall as [Hspec Hall].
    rewrite fmap_cons, configured_cons.
    eapply sameField_trans; [by apply IH|by apply applyOption_frame].
Qed.

(** X6: no list of exported options changes the protocol version, the
    multi-catalog flag, the poll interval or the default timeout: the
    connector [NewConnector] returns has them as [config.WithDefaults]
    set them. *)
Theorem options_keep_session_open_settings (WithDefaults : Config)
    (specs : list OptionSpec) :
  exists c,
    NewConnector WithDefaults (applyOption <$> specs) = (Some c, None) /\
    ThriftProtocolVersion (connector_cfg c) = ThriftProtocolVersion WithDefaults /\
    CanUseMultipleCatalogs (connector_cfg c)
      = CanUseMultipleCatalogs WithDefaults /\
    PollInterval (connector_cfg c) = PollInterval WithDefaults /\
    DefaultTimeout (connector_cfg c) = DefaultTimeout WithDefaults.
Proof.
  eexists. split; [apply NewConnector_configured|].
  apply configured_settings.
Qed.

(** X7: an option writes only the fields of its own kind: when no option
    of a list is of kind [k], the connector [NewConnector] returns has the
    fields of kind [k] as [config.WithDefaults] set them. *)
Theorem options_frame (WithDefaults : Config) (specs : list OptionSpec)
    (k : OptionKind) :
  Forall (fun spec => optionKind spec <> k) specs ->
  exists c,
    NewConnector WithDefaults (applyOption <$> specs) = (Some c, None) /\
    sameField k (connector_cfg c) WithDefaults.
Proof.
  intros Hall. eexists. split; [apply NewConnector_configured|].
  by apply configured_frame.
Qed.

Lemma options_frame_witness :
  exists c,
    NewConnector (sample_cfg ∅)
      (applyOption <$> [OPort 8443; OMaxRows 5; OAccessToken "t2"])
      = (Some c, None) /\
    sameField KInitialNamespace (connector_cfg c) (sample_cfg ∅).
Proof.
  apply (options_frame (sample_cfg ∅)
           [OPort 8443; OMaxRows 5; OAccessToken "t2"] KInitialNamespace).
  repeat constructor; discriminate.
Defined.

(** X8: the row limit of the connector is the argument of the last call
    of [WithMaxRows] with a non-zero argument, and the default when there
    is none: a zero argument never takes effect, so no option sets the
    limit to zero. *)
Theorem options_max_rows (WithDefaults : Config) (specs : list OptionSpec) :
  exists c,
    NewConnector WithDefaults (applyOption <$> specs) = (Some c, None) /\
    MaxRows (connector_cfg c)
      = default (MaxRows WithDefaults) (last (omap maxRowsRequest specs)) /\
    (MaxRows WithDefaults <> 0%Z -> MaxRows (connector_cfg c) <> 0%Z).
Proof.
  eexists. split; [apply NewConnector_configured|]. cbn [connector_cfg].
  assert (MaxRows (configured WithDefaults (applyOption <$> specs))
          = default (MaxRows WithDefaults) (last (omap maxRowsRequest specs))
          /\ (MaxRows WithDefaults <> 0%Z ->
              MaxRows (configured WithDefaults (applyOption <$> specs)) <> 0%Z))
    as [? ?]; [|done].
  induction specs as [|spec specs [IH1 IH2]] using rev_ind; [done|].
  rewrite fmap_app, configured_app, omap_app. cbn [fmap list_fmap omap list_omap].
  set (c := configured WithDefaults (applyOption <$> specs)) in *.
  destruct spec; cbn [maxRowsRequest]; rewrite ?app_nil_r;
    try (split; [exact IH1|exact IH2]).
  unfold configured; cbn; unfold WithMaxRows.
  case_decide; cbn.
  - rewrite last_snoc. done.
  - rewrite app_nil_r. done.
Qed.

(** X9: options of different kinds commute: applied in either order they
    give the same configuration. *)
Theorem options_commute (spec1 spec2 : OptionSpec) (c : Config) :
  optionKind spec1 <> optionKind spec2 ->
  applyOption spec1 (applyOption spec2 c)
    = applyOption spec2 (applyOption spec1 c).
Proof.
  intros Hkind. destruct c.
  destruct spec1, spec2; try (by destruct Hkind); option_cases; reflexivity.
Qed.

Lemma options_commute_witness :
  applyOption (OMaxRows 0) (applyOption (OPort 8443) (sample_cfg ∅))
    = applyOption (OPort 8443) (applyOption (OMaxRows 0) (sample_cfg ∅)).
Proof. apply options_commute. discriminate. Defined.

(** X10: of two options of the same kind the later one wins, unless it is
    [WithMaxRows 0], which changes nothing. *)
Theorem options_override (later earlier : OptionSpec) (c : Config) :
  optionKind later = optionKind earlier ->
  (later = OMaxRows 0 /\
   applyOption later (applyOption earlier c) = applyOption earlier c) \/
  (later <> OMaxRows 0 /\
   applyOption later (applyOption earlier c) = applyOption later c).
Proof.
  intros Hkind. destruct c.
  destruct later, earlier; try discriminate Hkind;
    try (right; split; [discriminate|reflexivity]).
  destruct (decide (n = 0%Z)) as [->|Hn].
  - left. split; [done|]. option_cases; done.
  - right. split; [congruence|]. option_cases; done.
Qed.

Lemma options_override_witness :
  (OMaxRows 0 = OMaxRows 0 /\
   applyOption (OMaxRows 0) (applyOption (OMaxRows 7) (sample_cfg ∅))
     = applyOption (OMaxRows 7) (sample_cfg ∅)) \/
  (OMaxRows 0 <> OMaxRows 0 /\
   applyOption (OMaxRows 0) (applyOption (OMaxRows 7) (sample_cfg ∅))
     = applyOption (OMaxRows 0) (sample_cfg ∅)).
Proof. apply options_override. reflexivity. Defined.

(** * Building a connector and connecting *)

(** X11: whatever exported options a connector is built with, [Connect]
    invokes the executor with the poll interval and the default timeout of
    [config.WithDefaults], and the open-session request carries the
    protocol version and the multi-catalog flag of [config.WithDefaults]. *)
Theorem NewConnector_Connect_settings (WithDefaults : Config)
    (specs : list OptionSpec) (env : Env) (c : connector)
    (tclient : ThriftServiceClient) :
  NewConnector WithDefaults (applyOption <$> specs) = (Some c, None) ->
  InitThriftClient env (connector_cfg c) = inr tclient ->
  omap watchOf (run (Connect env c)).2
    = [(PollInterval WithDefaults, DefaultTimeout WithDefaults)] /\
  (ClientProtocol <$> omap openSessionOf (run (Connect env c)).2)
    = [ThriftProtocolVersion WithDefaults] /\
  (ReqCanUseMultipleCatalogs <$> omap openSessionOf (run (Connect env c)).2)
    = [Some (CanUseMultipleCatalogs WithDefaults)].
Proof.
  rewrite NewConnector_configured. intros [= <-] Hinit.
  cbn [connector_cfg] in *.
  destruct (Connect_opening_events env
              {| connector_cfg := configured WithDefaults (applyOption <$> specs) |})
    as [Hw Ho].
  cbn [connector_cfg] in *. rewrite Hinit in Hw, Ho. rewrite Hw, Ho.
  destruct (configured_settings WithDefaults specs) as (H1 & H2 & H3 & H4).
  cbn. by rewrite H1, H2, H3, H4.
Qed.

Lemma NewConnector_Connect_settings_witness :
  let c := {| connector_cfg :=
                configured (sample_cfg ∅)
                  (applyOption <$> [OPort 8443; OInitialNamespace "c1" ""]) |} in
  omap watchOf (run (Connect (env_ok 0) c)).2 = [(1000000%Z, 60000000000%Z)].
Proof.
  intros c.
  apply (NewConnector_Connect_settings (sample_cfg ∅)
           [OPort 8443; OInitialNamespace "c1" ""] (env_ok 0) c (mkClient 1));
    reflexivity.
Defined.

(** X12: the namespace of the open-session request is decided by the last
    [WithInitialNamespace] among the options: its catalog and its schema
    are resolved, each absent when empty, whatever the defaults and the
    other options are. *)
Theorem NewConnector_Connect_namespace (WithDefaults : Config)
    (before after : list OptionSpec) (catalog schema : string) (env : Env)
    (c : connector) (tclient : ThriftServiceClient) :
  Forall (fun spec => optionKind spec <> KInitialNamespace) after ->
  NewConnector WithDefaults
    (applyOption <$> (before ++ OInitialNamespace catalog schema :: after))
    = (Some c, None) ->
  InitThriftClient env (connector_cfg c) = inr tclient ->
  (InitialNamespace <$> omap openSessionOf (run (Connect env c)).2)
    = [Some {| CatalogName := if decide (catalog = "") then None
                              else Some catalog;
               SchemaName := if decide (schema = "") then None
                             else Some schema |}].
Proof.
  intros Hafter. rewrite NewConnector_configured. intros [= <-] Hinit.
  match goal with |- context [Connect env ?cn] => set (c := cn) in * end.
  destruct (Connect_opening_events env c) as [_ Ho].
  rewrite Hinit in Ho. rewrite Ho. cbn [fmap list_fmap InitialNamespace openSessionReq].
  assert (Catalog (connector_cfg c) = catalog /\ Schema (connector_cfg c) = schema)
    as [-> ->].
  { subst c. cbn [connector_cfg].
    rewrite fmap_app, fmap_cons, configured_app, configured_cons.
    by destruct (configured_frame
                   (applyOption (OInitialNamespace catalog schema)
                      (configured WithDefaults (applyOption <$> before)))
                   after KInitialNamespace Hafter) as [-> ->]. }
  unfold resolveIdentifier, TIdentifierPtr. by repeat case_decide.
Qed.

Lemma NewConnector_Connect_namespace_witness :
  let c := {| connector_cfg :=
                configured (sample_cfg ∅)
                  (applyOption <$> [OInitialNamespace "x" "y";
                                    OInitialNamespace "c1" ""; OPort 8443]) |} in
  (InitialNamespace <$> omap openSessionOf (run (Connect (env_ok 0) c)).2)
    = [Some {| CatalogName := Some "c1"; SchemaName := None |}].
Proof.
  intros c.
  apply (NewConnector_Connect_namespace (sample_cfg ∅)
           [OInitialNamespace "x" "y"] [OPort 8443] "c1" "" (env_ok 0) c
           (mkClient 1)).
  - repeat constructor; discriminate.
  - reflexivity.
  - reflexivity.
Defined.

(** X13: the session parameters replayed are those of the last
    [WithSessionParams] among the options: a successful [Connect] executes
    one statement for each of its entries and none for the entries of the
    defaults or of an earlier [WithSessionParams]; mappings are replaced,
    not merged. *)
Theorem NewConnector_Connect_session_params (WithDefaults : Config)
    (before after : list OptionSpec) (params : gmap string string)
    (env : Env) (c : connector) (cn : conn) :
  Forall (fun spec => optionKind spec <> KSessionParams) after ->
  NewConnector WithDefaults
    (applyOption <$> (before ++ OSessionParams params :: after))
    = (Some c, None) ->
  (run (Connect env c)).1 = Returned (Some cn) None ->
  stmts (run (Connect env c)).2 ≡ₚ setStmt <$> map_to_list params /\
  length (stmts (run (Connect env c)).2) = size params.
Proof.
  intros Hafter. rewrite NewConnector_configured. intros [= <-] Hret.
  rewrite (stmts_ready _ _ cn Hret). cbn [connector_cfg].
  rewrite fmap_app, fmap_cons, configured_app, configured_cons.
  rewrite (configured_frame _ after KSessionParams Hafter).
  cbn [applyOption WithSessionParams SessionParams].
  split; [by rewrite rangeMap_Permutation|].
  by rewrite length_fmap, length_rangeMap.
Qed.

Lemma NewConnector_Connect_session_params_witness :
  let c := {| connector_cfg :=
                configured (sample_cfg params_ab)
                  (applyOption <$> [OSessionParams {[ "x" := "9" ]};
                                    OMaxRows 5]) |} in
  stmts (run (Connect (env_ok 0) c)).2
    ≡ₚ setStmt <$> map_to_list ({[ "x" := "9" ]} : gmap string string) /\
  length (stmts (run (Connect (env_ok 0) c)).2)
    = size ({[ "x" := "9" ]} : gmap string string).
Proof.
  intros c.
  eapply (NewConnector_Connect_session_params (sample_cfg params_ab)
            [] [OMaxRows 5] {[ "x" := "9" ]} (env_ok 0) c).
  - repeat constructor; discriminate.
  - reflexivity.
  - vm_compute. reflexivity.
Defined.

(** * The text of the statements *)

Lemma string_app_nil_l (s : string) : "" +:+ s = s.
Proof. reflexivity. Qed.

Lemma string_length_app (a b : string) :
  String.length (a +:+ b) = (String.length a + String.length b)%nat.
Proof.
  induction a as [|x a IH]; [done|].
  rewrite string_app_cons. cbn. by rewrite IH.
Qed.

Lemma string_app_inv_head (a b c : string) : a +:+ b = a +:+ c -> b = c.
Proof.
  induction a as [|x a IH]; [done|].
  rewrite !string_app_cons. intros [= Heq]. by apply IH.
Qed.

Lemma string_app_inv_tail (a b c : string) : a +:+ c = b +:+ c -> a = b.
Proof.
  intros Heq.
  assert (String.length a = String.length b) as Hlen.
  { apply (f_equal String.length) in Heq.
    rewrite !string_length_app in Heq. lia. }
  by destruct (string_app_inj_length a b c c Hlen Heq).
Qed.

(** Two backtick-free strings, each followed by a backtick, can be read
    back from the text. *)
Lemma quote_free_split (k1 k2 rest1 rest2 : string) :
  quote_free k1 = true -> quote_free k2 = true ->
  k1 +:+ String "`" rest1 = k2 +:+ String "`" rest2 ->
  k1 = k2 /\ rest1 = rest2.
Proof.
  revert k2. induction k1 as [|x k1 IH]; intros [|y k2] Hq1 Hq2;
    rewrite ?string_app_cons, ?string_app_nil_l; intros Heq.
  - by injection Heq.
  - injection Heq as <- _. cbn in Hq2. by case_decide.
  - injection Heq as -> _. cbn in Hq1. by case_decide.
  - injection Heq as -> Heq. cbn in Hq1, Hq2. repeat case_decide; try done.
    by destruct (IH k2 Hq1 Hq2 Heq) as [-> ->].
Qed.

Lemma setStmt_pair_inj (k1 v1 k2 v2 : string) :
  quote_free k1 = true -> quote_free k2 = true ->
  setStmt (k1, v1) = setStmt (k2, v2) ->
  k1 = k2 /\ v1 = v2.
Proof.
  intros Hq1 Hq2 Heq. unfold setStmt in Heq. cbn [fst snd] in Heq.
  apply string_app_inv_head in Heq.
  change (k1 +:+ String "`" (" = `" +:+ v1 +:+ "`;")
          = k2 +:+ String "`" (" = `" +:+ v2 +:+ "`;")) in Heq.
  apply quote_free_split in Heq as [-> Heq]; [|done..].
  split; [done|].
  apply string_app_inv_head in Heq. by apply string_app_inv_tail in Heq.
Qed.

(** X14: when the keys hold no backtick, the statement of line 71
    determines the session parameter: two (key, value) pairs with the same
    statement are the same pair, whatever the values hold. *)
Theorem setStmt_injective (k1 v1 k2 v2 : string) :
  quote_free k1 = true -> quote_free k2 = true ->
  setStmt (k1, v1) = setStmt (k2, v2) ->
  k1 = k2 /\ v1 = v2.
Proof. apply setStmt_pair_inj. Qed.

Lemma setStmt_injective_witness :
  "spark.sql.ansi.enabled" = "spark.sql.ansi.enabled" /\ "x`y" = "x`y".
Proof.
  apply (setStmt_injective "spark.sql.ansi.enabled" "x`y"
           "spark.sql.ansi.enabled" "x`y"); reflexivity.
Defined.

(** Without the precondition two different parameters can have the same
    statement: a backtick in a key is not escaped. *)
Example setStmt_ambiguous :
  setStmt ("a", "b` = `c") = setStmt ("a` = `b", "c") /\
  ("a", "b` = `c") <> ("a` = `b", "c").
Proof. split; [reflexivity|discriminate]. Qed.

(** X15: when no key of the session-parameter mapping holds a backtick, a
    successful [Connect] has executed pairwise different statements: no
    statement is executed twice. *)
Theorem Connect_statements_distinct (env : Env) (c : connector) (cn : conn) :
  (forall k v, SessionParams (connector_cfg c) !! k = Some v ->
               quote_free k = true) ->
  (run (Connect env c)).1 = Returned (Some cn) None ->
  NoDup (stmts (run (Connect env c)).2).
Proof.
  intros Hkeys Hret. rewrite (stmts_ready _ _ cn Hret).
  apply NoDup_fmap_2_strong.
  - intros [k1 v1] [k2 v2] H1 H2 Heq.
    rewrite rangeMap_Permutation in H1, H2.
    apply elem_of_map_to_list in H1, H2.
    by destruct (setStmt_pair_inj k1 v1 k2 v2 (Hkeys _ _ H1) (Hkeys _ _ H2) Heq)
      as [-> ->].
  - rewrite rangeMap_Permutation. apply NoDup_map_to_list.
Qed.

Lemma Connect_statements_distinct_witness :
  NoDup (stmts (run (Connect (env_ok 1)
                       {| connector_cfg := sample_cfg params_ab |})).2).
Proof.
  eapply (Connect_statements_distinct (env_ok 1)
            {| connector_cfg := sample_cfg params_ab |}).
  - intros k v Hkv. cbn in Hkv. unfold params_ab in Hkv.
    apply lookup_insert_Some in Hkv as [[<- _]|[_ Hkv]]; [reflexivity|].
    apply lookup_singleton_Some in Hkv as [<- _]. reflexivity.
  - vm_compute. reflexivity.
Defined.

(** * Results of [Connect] *)

(** X16: when the executor delivers, without error, the nil interface or
    a value of another type than the open-session response, [Connect]
    returns the invalid-response error and no Connection, and no statement
    is executed. *)
Theorem Connect_invalid_response (env : Env) (c : connector)
    (tclient : ThriftServiceClient) (res : any) :
  InitThriftClient env (connector_cfg c) = inr tclient ->
  delivered env tclient (connector_cfg c) = (res, None) ->
  (res = AnyNil \/ exists descr, res = AnyOther descr) ->
  (run (Connect env c)).1
    = Returned None (Some (ErrNew "databricks: invalid open session response")) /\
  execs (run (Connect env c)).2 = [].
Proof.
  intros Hinit Hd Hres.
  rewrite (Connect_rejects_other_shapes env c tclient res Hinit Hd); [done|].
  intros p ->. by destruct Hres as [?|[? ?]].
Qed.

Lemma Connect_invalid_response_witness :
  (run (Connect (env_answering AnyNil)
          {| connector_cfg := sample_cfg params_ab |})).1
    = Returned None (Some (ErrNew "databricks: invalid open session response")) /\
  execs (run (Connect (env_answering AnyNil)
                {| connector_cfg := sample_cfg params_ab |})).2 = [].
Proof.
  apply (Connect_invalid_response (env_answering AnyNil)
           {| connector_cfg := sample_cfg params_ab |} (mkClient 1) AnyNil).
  - reflexivity.
  - reflexivity.
  - by left.
Defined.

(** X17: whenever [Connect] returns, it returns a Connection and a nil
    error, or a nil Connection and a non-nil error; never both and never
    neither. *)
Theorem Connect_result_exclusive (env : Env) (c : connector)
    (o : option conn) (e : option error) :
  (run (Connect env c)).1 = Returned o e ->
  (o = None /\ e <> None) \/ (o <> None /\ e = None).
Proof.
  intros Hret.
  destruct (Connect_returned_exclusive env c o e Hret) as [[-> [x ->]]|[[x ->] ->]];
    [left|right]; done.
Qed.

Lemma Connect_result_exclusive_witness :
  (@None conn = None /\ Some (ErrNew "E") <> None) \/
  (@None conn <> None /\ Some (ErrNew "E") = None).
Proof.
  apply (Connect_result_exclusive (env_exec_fails 0 1 (ErrNew "E"))
           {| connector_cfg := sample_cfg params_ab |}).
  vm_compute. reflexivity.
Defined.
